(** * LanguageInterpreter: tool registration and the tool-calling turn loop

    A shallow embedding of [Modules/Language/LanguageInterpreter.py]:
    the class [LanguageInterpreter] with its methods [add_tool] and [run].

    Python objects that the interpreter only passes around (return values of
    tool callbacks, raised exceptions, argument values) are kept abstract: a
    type [PyObject] with the builtin [repr] and the test
    [isinstance(_, Exception)].  The outside world (the ollama server, the
    robot arm the callbacks drive) is a state [World] that the model provider
    [chat] and the callbacks read and update.  Callbacks act on the world only;
    they hold no reference to the interpreter object itself. *)

From stdpp Require Import base strings list gmap.

Local Open Scope string_scope.
Local Open Scope list_scope.

(** ** Signatures as [inspect.signature] reports them *)

(** What [Parameter.annotation] can be: the marker class [Parameter.empty]
    (no annotation), an object that has a [__name__] attribute (a class such
    as [int] or [float]), or an object without one (a string annotation, for
    instance). *)
Inductive Annotation :=
| AnnEmpty
| AnnNamed (name : string)
| AnnNameless.

(** [annotation.__name__]: [Parameter.empty] is the class [inspect._empty],
    whose [__name__] is the string ["_empty"]; an object without the
    attribute raises [AttributeError] ([None] here). *)
Definition dunder_name (a : Annotation) : option string :=
  match a with
  | AnnEmpty => Some "_empty"
  | AnnNamed n => Some n
  | AnnNameless => None
  end.

(** [annotation != Parameter.empty] at line 48, where [annotation] is by then
    the string read from [__name__]: a [str] is never equal to the class
    [inspect._empty], so the comparison is always true. *)
Definition ne_Parameter_empty (annotation : string) : bool := true.

(** One entry of [properties]: the dict with keys ["type"] and
    ["description"]. *)
Record Property := mkProperty {
  prop_type : string;
  prop_description : string
}.

(** [d[k] = v] on an insertion-ordered dict: an existing key keeps its
    position and takes the new value, a new key goes last. *)
Fixpoint dict_set {V : Type} (d : list (string * V)) (k : string) (v : V)
  : list (string * V) :=
  match d with
  | [] => [(k, v)]
  | (k', v') :: rest =>
      if String.eqb k' k then (k, v) :: rest else (k', v') :: dict_set rest k v
  end.

(** The dict under ["parameters"]. *)
Record ToolParameters := mkToolParameters {
  params_type : string;
  properties : list (string * Property);
  required : list string
}.

(** The dict under ["function"]; [fun_description] is [fn.__doc__], which is
    [None] for a function without a docstring. *)
Record ToolFunction := mkToolFunction {
  fun_name : string;
  fun_description : option string;
  parameters : ToolParameters
}.

(** [ollama._types.Tool]. *)
Record Tool := mkTool {
  tool_type : string;
  function : ToolFunction
}.

Section Interpreter.

Context {PyObject : Type}.
Variable repr : PyObject -> string.
Variable isinstance_Exception : PyObject -> bool.
Context {World : Type}.

(** One parameter of a signature.  [p_default = None] stands for
    [Parameter.empty]; a declared default is an ordinary object, which
    does not compare equal to the marker class. *)
Record Param := mkParam {
  p_name : string;
  p_annotation : Annotation;
  p_default : option PyObject
}.

(** [default == Parameter.empty] at line 50. *)
Definition eq_Parameter_empty (default : option PyObject) : bool :=
  match default with
  | None => true
  | Some _ => false
  end.

(** How a call [fn( **args )] ends. *)
Inductive Outcome :=
| Returns (v : PyObject)
| Raises (ex : PyObject).

(** A host function: [__name__], [__doc__], the parameters of
    [signature(fn)] in declaration order, and what calling it with keyword
    arguments does to the world. *)
Record Callable := mkCallable {
  fn_name : string;
  fn_doc : option string;
  fn_parameters : list Param;
  fn_call : gmap string PyObject -> World -> Outcome * World
}.

(** An element of [message["tool_calls"]]: [fn["name"]] and
    [fn["arguments"]]. *)
Record ToolCall := mkToolCall {
  tc_name : string;
  tc_arguments : gmap string PyObject
}.

(** A transcript entry.  [tool_calls = None] means the key ["tool_calls"]
    is absent from the dict. *)
Record Message := mkMessage {
  msg_role : string;
  msg_content : string;
  msg_tool_calls : option (list ToolCall)
}.

(** The fields of a [LanguageInterpreter] instance. *)
Record LanguageInterpreter := mkInterp {
  messages : list Message;
  tools : list Tool;
  tool_callbacks : gmap string Callable;
  tool_param_names : gmap string (list string)
}.

(** The state after the assignments of [__init__] (model loading is left
    out). *)
Definition init : LanguageInterpreter :=
  mkInterp [] [] ∅ ∅.

(** *** add_tool *)

(** The loop of lines 43-55 over the parameters that are still to visit,
    with the dict [params] and the list [required_params] built so far.
    [inr name] is the [AttributeError] raised at line 45 for the parameter
    [name]. *)
Fixpoint add_tool_params (ps : list Param)
    (params : list (string * Property)) (required_params : list string)
  : (list (string * Property) * list string) + string :=
  match ps with
  | [] => inl (params, required_params)
  | p :: rest =>
      let param_name := p_name p in
      match dunder_name (p_annotation p) with
      | None => inr param_name
      | Some annotation =>
          let description := "The " +:+ param_name +:+ " parameter" in
          let param_type := "any" in
          let param_type :=
            if ne_Parameter_empty annotation then annotation else param_type in
          let required_params :=
            if eq_Parameter_empty (p_default p)
            then required_params ++ [param_name]
            else required_params in
          add_tool_params rest
            (dict_set params param_name (mkProperty param_type description))
            required_params
      end
  end.

Inductive AddToolResult :=
| AddToolDone
| AddToolAttributeError (param_name : string).

(** [add_tool(self, fn)]: the result and the instance afterwards.  When
    line 45 raises, nothing has been written to the instance yet. *)
Definition add_tool (fn : Callable) (self : LanguageInterpreter)
  : AddToolResult * LanguageInterpreter :=
  match add_tool_params (fn_parameters fn) [] [] with
  | inr param_name => (AddToolAttributeError param_name, self)
  | inl (params, required_params) =>
      let tool :=
        mkTool "function"
          (mkToolFunction (fn_name fn) (fn_doc fn)
             (mkToolParameters "object" params required_params)) in
      (AddToolDone,
       mkInterp (messages self)
                (tools self ++ [tool])
                (<[fn_name fn := fn]> (tool_callbacks self))
                (tool_param_names self))
  end.

(** *** run *)

(** The model provider, [ollama.chat(model, messages, tools)]: from the
    world, the transcript and the schemas to [response["message"]] and the
    world afterwards. *)
Variable chat : World -> list Message -> list Tool -> Message * World.

(** What an execution does that the instance does not record: the calls of
    the model provider with the arguments passed and the message received,
    and the line printed for each tool call (line 90). *)
Inductive Event :=
| EvChat (transcript : list Message) (schemas : list Tool) (reply : Message)
| EvUsingTool (tc : ToolCall).

(** The instance, the world and the events so far. *)
Record Machine := mkMachine {
  interp : LanguageInterpreter;
  world : World;
  trace : list Event
}.

(** [self.messages.append(msg)]. *)
Definition append_message (msg : Message) (m : Machine) : Machine :=
  mkMachine
    (mkInterp (messages (interp m) ++ [msg]) (tools (interp m))
              (tool_callbacks (interp m)) (tool_param_names (interp m)))
    (world m) (trace m).

Definition set_world (w : World) (m : Machine) : Machine :=
  mkMachine (interp m) w (trace m).

Definition emit (ev : Event) (m : Machine) : Machine :=
  mkMachine (interp m) (world m) (trace m ++ [ev]).

Definition user_message (command : string) : Message :=
  mkMessage "user" command None.

Definition tool_message (tool_response : string) : Message :=
  mkMessage "tool" tool_response None.

(** Lines 91-98: the text of [tool_response] ([inl]), or the exception
    that [except Exception] does not catch ([inr]), with the world after
    the callback. *)
Definition tool_response (callbacks : gmap string Callable) (tc : ToolCall)
    (w : World) : (string + PyObject) * World :=
  let name := tc_name tc in
  let args := tc_arguments tc in
  match callbacks !! name with
  | Some fn =>
      match fn_call fn args w with
      | (Returns v, w') =>
          (inl ("Completed with no errors. Result: " +:+ repr v), w')
      | (Raises ex, w') =>
          if isinstance_Exception ex
          then (inl ("Error: " +:+ repr ex), w')
          else (inr ex, w')
      end
  | None => (inl ("Error: " +:+ name +:+ " is not a tool."), w)
  end.

(** The [for tool_call in tool_calls] loop, lines 86-99.  [Some ex] is an
    exception leaving the loop. *)
Fixpoint for_tool_calls (tcs : list ToolCall) (m : Machine)
  : option PyObject * Machine :=
  match tcs with
  | [] => (None, m)
  | tool_call :: rest =>
      let m := emit (EvUsingTool tool_call) m in
      match tool_response (tool_callbacks (interp m)) tool_call (world m) with
      | (inl text, w) =>
          for_tool_calls rest (append_message (tool_message text) (set_world w m))
      | (inr ex, w) => (Some ex, set_world w m)
      end
  end.

(** How one pass through the body of [while not done] ends. *)
Inductive Turn :=
| TurnDone
| TurnAgain
| TurnRaised (ex : PyObject).

(** Lines 76-101: one pass through the loop body, from the value of
    [content] and the machine to how the pass ends, the new value of
    [content] and the machine afterwards. *)
Definition turn (content : string) (m : Machine) : Turn * string * Machine :=
  let '(message, w) := chat (world m) (messages (interp m)) (tools (interp m)) in
  let m :=
    emit (EvChat (messages (interp m)) (tools (interp m)) message) (set_world w m) in
  let content := content +:+ msg_content message in
  let m := append_message message m in
  match msg_tool_calls message with
  | Some tcs =>
      let done := bool_decide (length tcs = 0) in
      match for_tool_calls tcs m with
      | (Some ex, m) => (TurnRaised ex, content, m)
      | (None, m) => (if done then TurnDone else TurnAgain, content, m)
      end
  | None => (TurnDone, content, m)
  end.

(** How a call of [run] ends: it returns [content], an exception leaves
    it, or the loop is still going when the fuel is used up. *)
Inductive Completion :=
| Returned (text : string)
| Propagated (ex : PyObject)
| OutOfFuel.

(** [while not done], with at most [fuel] passes. *)
Fixpoint while_not_done (fuel : nat) (content : string) (m : Machine)
  : Completion * Machine :=
  match fuel with
  | 0 => (OutOfFuel, m)
  | S fuel =>
      match turn content m with
      | (TurnDone, content, m) => (Returned content, m)
      | (TurnRaised ex, content, m) => (Propagated ex, m)
      | (TurnAgain, content, m) => while_not_done fuel content m
      end
  end.

(** [run(self, command)]. *)
Definition run (fuel : nat) (command : string) (m : Machine)
  : Completion * Machine :=
  while_not_done fuel "" (append_message (user_message command) m).

(** ** Observations used in the statements *)

(** The entry that one pass of the loop of [add_tool] writes for a
    parameter. *)
Definition schema_entry (p : Param) : string * Property :=
  (p_name p,
   mkProperty (default "any" (dunder_name (p_annotation p)))
              ("The " +:+ p_name p +:+ " parameter")).

(** The parameters whose annotation has a [__name__]. *)
Definition introspectable (fn : Callable) : Prop :=
  Forall (fun p => is_Some (dunder_name (p_annotation p))) (fn_parameters fn).


(** The messages received from the model provider, in the order of the
    calls. *)
Definition replies (evs : list Event) : list Message :=
  omap (fun ev => match ev with
                  | EvChat _ _ reply => Some reply
                  | EvUsingTool _ => None
                  end) evs.

(** The number of calls of the model provider. *)
Definition chat_calls (evs : list Event) : nat := length (replies evs).

(** The transcripts passed to the model provider, in the order of the
    calls. *)
Definition sent_transcripts (evs : list Event) : list (list Message) :=
  omap (fun ev => match ev with
                  | EvChat transcript _ _ => Some transcript
                  | EvUsingTool _ => None
                  end) evs.

(** The contents of a list of messages, joined in order. *)
Definition contents (msgs : list Message) : string :=
  foldr (fun msg rest => msg_content msg +:+ rest) "" msgs.

(** What one turn appends to the transcript: the message received, then one
    tool-role message per text. *)
Definition turn_messages (t : Message * list string) : list Message :=
  t.1 :: map tool_message t.2.



(** The message that the next call of the model provider returns. *)
Definition next_reply (m : Machine) : Message :=
  (chat (world m) (messages (interp m)) (tools (interp m))).1.


(** ** Schema derivation *)

Lemma dict_set_fresh {V : Type} (d : list (string * V)) k v :
  k ∉ map fst d -> dict_set d k v = d ++ [(k, v)].
Proof.
  induction d as [|[k' v'] d IH]; simpl; intros Hk; [done|].
  apply not_elem_of_cons in Hk as [Hne Hk].
  destruct (String.eqb_spec k' k) as [->|_]; [done|].
  by rewrite IH.
Qed.

Lemma add_tool_params_inl ps : forall params required_params,
  Forall (fun p => is_Some (dunder_name (p_annotation p))) ps ->
  NoDup (map fst params ++ map p_name ps) ->
  add_tool_params ps params required_params
  = inl (params ++ map schema_entry ps,
         required_params
           ++ map p_name
                (List.filter (fun p => eq_Parameter_empty (p_default p)) ps)).
Proof.
  induction ps as [|p ps IH]; intros params req Hname Hnd; simpl.
  - by rewrite !app_nil_r.
  - apply Forall_cons in Hname as [[n Hn] Hname].
    rewrite Hn. unfold ne_Parameter_empty.
    apply NoDup_app in Hnd as (Hnd1 & Hdisj & Hnd2).
    apply NoDup_cons in Hnd2 as [Hp Hnd2].
    rewrite dict_set_fresh.
    2:{ intros Hin. apply (Hdisj _ Hin). left. }
    rewrite IH; [|done|].
    + unfold schema_entry at 2. rewrite Hn. simpl.
      rewrite <- !app_assoc. simpl.
      destruct (eq_Parameter_empty (p_default p)); simpl;
        by rewrite <- ?app_assoc.
    + rewrite map_app. simpl. rewrite <- app_assoc. simpl.
      apply NoDup_app. split; [done|]. split.
      * intros x Hx Hx'. apply elem_of_cons in Hx' as [->|Hx'].
        -- apply (Hdisj _ Hx). left.
        -- apply (Hdisj _ Hx). by right.
      * by apply NoDup_cons.
Qed.

Lemma add_tool_params_inr ps : forall params required_params,
  ¬ Forall (fun p => is_Some (dunder_name (p_annotation p))) ps ->
  exists name, add_tool_params ps params required_params = inr name.
Proof.
  induction ps as [|p ps IH]; intros params req Hname; simpl.
  - destruct Hname. constructor.
  - destruct (dunder_name (p_annotation p)) as [n|] eqn:Hn; [|by eexists].
    apply IH. intros H. apply Hname. constructor; [by eexists|done].
Qed.


(** What [add_tool] does for a function whose annotations all have a
    [__name__] and whose parameter names are distinct. *)
Lemma add_tool_done (fn : Callable) (self : LanguageInterpreter) :
  introspectable fn ->
  NoDup (map p_name (fn_parameters fn)) ->
  add_tool fn self
  = (AddToolDone,
     mkInterp (messages self)
       (tools self ++
          [mkTool "function"
             (mkToolFunction (fn_name fn) (fn_doc fn)
                (mkToolParameters "object"
                   (map schema_entry (fn_parameters fn))
                   (map p_name
                      (List.filter (fun p => eq_Parameter_empty (p_default p))
                         (fn_parameters fn)))))])
       (<[fn_name fn := fn]> (tool_callbacks self))
       (tool_param_names self)).
Proof.
  intros Hname Hnd. unfold add_tool.
  by rewrite add_tool_params_inl.
Qed.

(** A call of [add_tool] that returns has appended one schema with the name
    of the function and has stored the function under that name. *)
Lemma add_tool_returns (fn : Callable) (self : LanguageInterpreter) :
  (add_tool fn self).1 = AddToolDone ->
  exists tool,
    fun_name (function tool) = fn_name fn /\
    tools (add_tool fn self).2 = tools self ++ [tool] /\
    tool_callbacks (add_tool fn self).2
    = <[fn_name fn := fn]> (tool_callbacks self).
Proof.
  unfold add_tool.
  destruct (add_tool_params _ _ _) as [[params req]|name]; simpl; [|done].
  intros _. eexists (mkTool _ (mkToolFunction _ _ _)). simpl. by split_and!.
Qed.

(** An annotation without [__name__] makes [add_tool] raise before it has
    written anything. *)
Lemma add_tool_raises (fn : Callable) (self : LanguageInterpreter) :
  ¬ introspectable fn ->
  exists param_name,
    add_tool fn self = (AddToolAttributeError param_name, self).
Proof.
  intros Hname. unfold add_tool.
  destruct (add_tool_params_inr (fn_parameters fn) [] [] Hname) as [name ->].
  by exists name.
Qed.



(** ** The loop over the tool calls of one turn *)

Lemma append_nil_r (s : string) : s +:+ "" = s.
Proof.
  induction s as [|a s IH]; [done|].
  change (String a s +:+ "") with (String a (s +:+ "")). by rewrite IH.
Qed.

Lemma append_assoc (s1 s2 s3 : string) :
  (s1 +:+ s2) +:+ s3 = s1 +:+ (s2 +:+ s3).
Proof.
  induction s1 as [|a s1 IH]; [done|].
  change (String a ((s1 +:+ s2) +:+ s3) = String a (s1 +:+ (s2 +:+ s3))).
  by rewrite IH.
Qed.

Lemma contents_app (l1 l2 : list Message) :
  contents (l1 ++ l2) = contents l1 +:+ contents l2.
Proof.
  induction l1 as [|msg l1 IH]; simpl; [done|].
  by rewrite IH, append_assoc.
Qed.


Lemma sent_transcripts_app (evs1 evs2 : list Event) :
  sent_transcripts (evs1 ++ evs2)
  = sent_transcripts evs1 ++ sent_transcripts evs2.
Proof. apply omap_app. Qed.

Lemma replies_using_tool (tcs : list ToolCall) :
  replies (map EvUsingTool tcs) = [].
Proof. by induction tcs. Qed.

Lemma sent_transcripts_using_tool (tcs : list ToolCall) :
  sent_transcripts (map EvUsingTool tcs) = [].
Proof. by induction tcs. Qed.

(** Whatever the callbacks do, the loop only appends tool-role messages and
    prints one line per request it starts; the schemas, the callbacks and
    the parameter-name map stay as they are. *)
Lemma for_tool_calls_spec (tcs : list ToolCall) : forall m,
  exists texts k,
    messages (interp (for_tool_calls tcs m).2)
    = messages (interp m) ++ map tool_message texts /\
    trace (for_tool_calls tcs m).2
    = trace m ++ map EvUsingTool (take k tcs) /\
    tools (interp (for_tool_calls tcs m).2) = tools (interp m) /\
    tool_callbacks (interp (for_tool_calls tcs m).2)
    = tool_callbacks (interp m) /\
    tool_param_names (interp (for_tool_calls tcs m).2)
    = tool_param_names (interp m).
Proof.
  induction tcs as [|tc tcs IH]; intros m; simpl.
  - exists [], 0. simpl. by rewrite !app_nil_r.
  - destruct (tool_response _ tc (world m)) as [[text|ex] w].
    + destruct (IH (append_message (tool_message text)
                      (set_world w (emit (EvUsingTool tc) m))))
        as (texts & k & Hm & Ht & Hs & Hc & Hp).
      exists (text :: texts), (S k). simpl in *.
      rewrite Hm, Ht, Hs, Hc, Hp, <- !app_assoc. done.
    + exists [], 1. simpl. by rewrite app_nil_r.
Qed.



(** ** One turn *)

(** Whatever happens in a turn: [content] grows by the content of the
    message received, the transcript grows by that message followed by
    tool-role messages, and the model provider is called once, before any
    tool call. *)
Lemma turn_spec (content : string) (m : Machine) :
  exists texts k,
    (turn content m).1.2 = content +:+ msg_content (next_reply m) /\
    messages (interp (turn content m).2)
    = messages (interp m) ++ next_reply m :: map tool_message texts /\
    trace (turn content m).2
    = trace m
      ++ EvChat (messages (interp m)) (tools (interp m)) (next_reply m)
         :: map EvUsingTool (take k (default [] (msg_tool_calls (next_reply m)))) /\
    tools (interp (turn content m).2) = tools (interp m) /\
    tool_callbacks (interp (turn content m).2) = tool_callbacks (interp m) /\
    tool_param_names (interp (turn content m).2)
    = tool_param_names (interp m).
Proof.
  unfold turn, next_reply.
  destruct (chat _ _ _) as [reply w]. simpl.
  destruct (msg_tool_calls reply) as [tcs|]; simpl.
  - match goal with |- context [for_tool_calls tcs ?m1] =>
      destruct (for_tool_calls_spec tcs m1) as (texts & k & Hm & Ht & Hs & Hc & Hp);
      destruct (for_tool_calls tcs m1) as [[ex|] m2]
    end; simpl in *; exists texts, k;
      rewrite Hm, Ht, Hs, Hc, Hp, <- ?app_assoc; done.
  - exists [], 0. simpl. by rewrite <- ?app_assoc.
Qed.



(** ** The loop over the turns *)

Lemma while_not_done_S (fuel : nat) (content : string) (m : Machine) :
  while_not_done (S fuel) content m
  = match turn content m with
    | (TurnDone, content, m) => (Returned content, m)
    | (TurnRaised ex, content, m) => (Propagated ex, m)
    | (TurnAgain, content, m) => while_not_done fuel content m
    end.
Proof. done. Qed.

(** Whatever the fuel and however the loop ends: the transcript grows by
    whole turns (a message received, then tool-role messages), the trace
    grows, the messages received are those heading the turns, every
    transcript passed to the model provider extends the transcript at the
    start, the model provider is called at most once per pass, a returned
    text is [content] at the start followed by the contents of the messages
    received, and the registry is as it was. *)
Lemma while_not_done_spec (fuel : nat) : forall content m,
  exists turns evs,
    messages (interp (while_not_done fuel content m).2)
    = messages (interp m) ++ flat_map turn_messages turns /\
    trace (while_not_done fuel content m).2 = trace m ++ evs /\
    replies evs = map fst turns /\
    Forall (fun transcript => messages (interp m) `prefix_of` transcript)
           (sent_transcripts evs) /\
    chat_calls evs <= fuel /\
    (forall text,
       (while_not_done fuel content m).1 = Returned text ->
       text = content +:+ contents (replies evs)) /\
    tools (interp (while_not_done fuel content m).2) = tools (interp m) /\
    tool_callbacks (interp (while_not_done fuel content m).2)
    = tool_callbacks (interp m) /\
    tool_param_names (interp (while_not_done fuel content m).2)
    = tool_param_names (interp m).
Proof.
  induction fuel as [|fuel IH]; intros content m.
  - exists [], []. simpl. rewrite !app_nil_r.
    by split_and!; try (unfold chat_calls; simpl; lia).
  - rewrite while_not_done_S.
    destruct (turn_spec content m)
      as (texts & k & Hcont & Hm & Ht & Hs & Hc & Hp).
    destruct (turn content m) as [[t content'] m1]. simpl in *.
    set (tcs := take k (default [] (msg_tool_calls (next_reply m)))) in *.
    assert (Hone : forall evs,
      replies ((EvChat (messages (interp m)) (tools (interp m)) (next_reply m)
                :: map EvUsingTool tcs) ++ evs)
      = next_reply m :: replies evs).
    { intros evs. unfold replies. simpl. f_equal.
      rewrite omap_app. fold (replies (map EvUsingTool tcs)).
      by rewrite replies_using_tool. }
    assert (Hsent : forall evs,
      sent_transcripts
        ((EvChat (messages (interp m)) (tools (interp m)) (next_reply m)
          :: map EvUsingTool tcs) ++ evs)
      = messages (interp m) :: sent_transcripts evs).
    { intros evs. unfold sent_transcripts. simpl. f_equal.
      rewrite omap_app. fold (sent_transcripts (map EvUsingTool tcs)).
      by rewrite sent_transcripts_using_tool. }
    assert (Hlast : forall c,
      exists turns evs,
        messages (interp (c, m1).2)
        = messages (interp m) ++ flat_map turn_messages turns /\
        trace (c, m1).2 = trace m ++ evs /\
        replies evs = map fst turns /\
        Forall (fun transcript => messages (interp m) `prefix_of` transcript)
               (sent_transcripts evs) /\
        chat_calls evs <= S fuel /\
        (c = Returned content' ->
         forall text, (c, m1).1 = Returned text ->
                      text = content +:+ contents (replies evs))).
    { intros c.
      exists [(next_reply m, texts)],
             (EvChat (messages (interp m)) (tools (interp m)) (next_reply m)
              :: map EvUsingTool tcs).
      specialize (Hone []). specialize (Hsent []).
      rewrite app_nil_r in Hone, Hsent.
      unfold chat_calls. rewrite Hone, Hsent. simpl.
      rewrite app_nil_r. split_and!; try done.
      - by repeat constructor.
      - lia.
      - intros -> text [= <-]. by rewrite Hcont, append_nil_r. }
    destruct t as [| |ex].
    + destruct (Hlast (Returned content'))
        as (turns & evs & H1 & H2 & H3 & H4 & H5 & H6).
      exists turns, evs. split_and!; try done. by apply H6.
    + destruct (IH content' m1)
        as (turns & evs & Hm' & Ht' & Hrep & Hpre & Hcalls & Htext
            & Hs' & Hc' & Hp').
      exists ((next_reply m, texts) :: turns),
             ((EvChat (messages (interp m)) (tools (interp m)) (next_reply m)
               :: map EvUsingTool tcs) ++ evs).
      rewrite Hm', Ht', Hs', Hc', Hp', Hm, Ht, <- !app_assoc.
      split_and!; try done.
      * rewrite Hone, Hrep. done.
      * rewrite Hsent. constructor; [done|].
        eapply Forall_impl; [exact Hpre|]. simpl. intros tr Htr.
        etrans; [|exact Htr]. rewrite Hm. by apply prefix_app_r.
      * unfold chat_calls in *. rewrite Hone. simpl. lia.
      * intros text Hret. rewrite (Htext _ Hret), Hcont, Hone. simpl.
        by rewrite append_assoc.
    + destruct (Hlast (Propagated ex))
        as (turns & evs & H1 & H2 & H3 & H4 & H5 & H6).
      exists turns, evs. by split_and!.
Qed.





(** ** run *)

Lemma run_spec (fuel : nat) (command : string) (m : Machine) :
  exists turns evs,
    messages (interp (run fuel command m).2)
    = messages (interp m)
      ++ user_message command :: flat_map turn_messages turns /\
    trace (run fuel command m).2 = trace m ++ evs /\
    replies evs = map fst turns /\
    Forall (fun transcript =>
              (messages (interp m) ++ [user_message command])
                `prefix_of` transcript)
           (sent_transcripts evs) /\
    chat_calls evs <= fuel /\
    (forall text,
       (run fuel command m).1 = Returned text ->
       text = contents (replies evs)) /\
    tools (interp (run fuel command m).2) = tools (interp m) /\
    tool_callbacks (interp (run fuel command m).2)
    = tool_callbacks (interp m) /\
    tool_param_names (interp (run fuel command m).2)
    = tool_param_names (interp m).
Proof.
  unfold run.
  destruct (while_not_done_spec fuel ""
              (append_message (user_message command) m))
    as (turns & evs & Hm & Ht & Hrep & Hpre & Hn & Htext & Hs & Hc & Hp).
  exists turns, evs. simpl in *.
  rewrite Hm, Ht, Hs, Hc, Hp, <- app_assoc. done.
Qed.

(** C10.  [add_tool] leaves the transcript (and the parameter-name map) as
    it is, whether it returns or raises; [run] leaves the schemas, the
    callbacks and the parameter-name map as they are, whatever the number of
    turns and however it ends. *)
Theorem C10_disjoint_frames (fn : Callable) (self : LanguageInterpreter)
    (fuel : nat) (command : string) (m : Machine) :
  (messages (add_tool fn self).2 = messages self /\
   tool_param_names (add_tool fn self).2 = tool_param_names self) /\
  (tools (interp (run fuel command m).2) = tools (interp m) /\
   tool_callbacks (interp (run fuel command m).2) = tool_callbacks (interp m) /\
   tool_param_names (interp (run fuel command m).2)
   = tool_param_names (interp m)).
Proof.
  split.
  - unfold add_tool.
    by destruct (add_tool_params _ _ _) as [[params req]|name].
  - destruct (run_spec fuel command m)
      as (turns & evs & _ & _ & _ & _ & _ & _ & Hs & Hc & Hp).
    done.
Qed.








(** ** The type recorded for a parameter *)

(** C2, as the code has it.  In the schema that [add_tool] appends, the
    entry of a parameter with an annotation that has a [__name__] records
    that name as its type; the entry of a parameter without annotation
    records "_empty", the [__name__] of the marker class [Parameter.empty],
    and not "any". *)
Theorem C2_recorded_type (fn : Callable) (self : LanguageInterpreter) :
  introspectable fn ->
  NoDup (map p_name (fn_parameters fn)) ->
  exists tool,
    tools (add_tool fn self).2 = tools self ++ [tool] /\
    forall p, p ∈ fn_parameters fn ->
      exists prop,
        (p_name p, prop) ∈ properties (parameters (function tool)) /\
        (forall name, p_annotation p = AnnNamed name -> prop_type prop = name) /\
        (p_annotation p = AnnEmpty -> prop_type prop = "_empty").
Proof.
  intros Hname Hnd. eexists.
  rewrite (add_tool_done fn self Hname Hnd). simpl. split; [done|].
  intros p Hp. exists (schema_entry p).2. simpl. split_and!.
  - apply list_elem_of_In, in_map_iff. exists p. split; [done|].
    by apply list_elem_of_In.
  - by intros name ->.
  - by intros ->.
Qed.

(** ** Callbacks that raise instances of [Exception] only *)



(** ** Sessions: a caller using one instance *)

(** What a caller does with an instance: register a function, or run a
    command.  A call that ends with an exception leaves the instance as the
    call left it, and the caller goes on. *)
Inductive Op :=
| OpAddTool (fn : Callable)
| OpRun (fuel : nat) (command : string).

Definition step (m : Machine) (op : Op) : Machine :=
  match op with
  | OpAddTool fn => mkMachine (add_tool fn (interp m)).2 (world m) (trace m)
  | OpRun fuel command => (run fuel command m).2
  end.

Definition session (ops : list Op) (m : Machine) : Machine :=
  foldl step m ops.

(** A new instance in the world [w]. *)
Definition fresh (w : World) : Machine := mkMachine init w [].

(** The first parameter, in declaration order, whose annotation has no
    [__name__]. *)
Definition first_nameless (fn : Callable) : option Param :=
  List.find (fun p => bool_decide (dunder_name (p_annotation p) = None))
    (fn_parameters fn).

(** The registrations of a session that return. *)
Definition registrations (ops : list Op) : nat :=
  length (List.filter
            (fun op => match op with
                       | OpAddTool fn =>
                           bool_decide (first_nameless fn = None)
                       | OpRun _ _ => false
                       end) ops).

(** The names under which [self.tools] declares a schema. *)
Definition schema_names (self : LanguageInterpreter) : list string :=
  map (fun t => fun_name (function t)) (tools self).

(** ** add_tool: errors and what it keeps *)

Lemma add_tool_params_first_nameless ps : forall params required_params,
  match List.find (fun p => bool_decide (dunder_name (p_annotation p) = None))
          ps with
  | Some p => add_tool_params ps params required_params = inr (p_name p)
  | None => exists r, add_tool_params ps params required_params = inl r
  end.
Proof.
  induction ps as [|p ps IH]; intros params req; simpl.
  - by eexists.
  - destruct (dunder_name (p_annotation p)) as [n|] eqn:Hn.
    + rewrite bool_decide_false by done. apply IH.
    + by rewrite bool_decide_true by done.
Qed.


Lemma add_tool_done_iff (fn : Callable) (self : LanguageInterpreter) :
  (add_tool fn self).1 = AddToolDone <-> first_nameless fn = None.
Proof.
  unfold add_tool, first_nameless.
  pose proof (add_tool_params_first_nameless (fn_parameters fn) [] [])
    as Hps.
  destruct (List.find _ (fn_parameters fn)) as [p|] eqn:Hf.
  - rewrite Hps. simpl. split; done.
  - destruct Hps as [[params req] ->]. simpl. split; done.
Qed.

Lemma add_tool_not_done (fn : Callable) (self : LanguageInterpreter) :
  (add_tool fn self).1 <> AddToolDone -> (add_tool fn self).2 = self.
Proof.
  unfold add_tool.
  by destruct (add_tool_params _ _ _) as [[params req]|name].
Qed.


(** X2.  Registering a function leaves every tool registered under another
    name as it was, keeps the schemas already declared, in place, at the
    head of the list, and (when it returns) makes the function the one
    found under its own name. *)
Theorem add_tool_keeps_others (fn : Callable) (self : LanguageInterpreter)
    (name : string) :
  name <> fn_name fn ->
  tool_callbacks (add_tool fn self).2 !! name = tool_callbacks self !! name /\
  tools self `prefix_of` tools (add_tool fn self).2 /\
  ((add_tool fn self).1 = AddToolDone ->
   tool_callbacks (add_tool fn self).2 !! fn_name fn = Some fn).
Proof.
  intros Hne. unfold add_tool.
  destruct (add_tool_params _ _ _) as [[params req]|pname]; simpl.
  - split_and!.
    + by rewrite lookup_insert_ne.
    + by apply prefix_app_r.
    + intros _. apply lookup_insert_eq.
  - by split_and!.
Qed.

(** ** What a session keeps *)

Lemma step_run_frame (m : Machine) (fuel : nat) (command : string) :
  tools (interp (step m (OpRun fuel command))) = tools (interp m) /\
  tool_callbacks (interp (step m (OpRun fuel command)))
  = tool_callbacks (interp m) /\
  tool_param_names (interp (step m (OpRun fuel command)))
  = tool_param_names (interp m).
Proof.
  simpl. destruct (run_spec fuel command m)
    as (turns & evs & _ & _ & _ & _ & _ & _ & Hs & Hc & Hp).
  done.
Qed.

Lemma add_tool_names_agree (fn : Callable) (self : LanguageInterpreter) :
  (forall name,
     is_Some (tool_callbacks self !! name) <-> name ∈ schema_names self) ->
  forall name,
    is_Some (tool_callbacks (add_tool fn self).2 !! name)
    <-> name ∈ schema_names (add_tool fn self).2.
Proof.
  intros Hinv name. unfold add_tool, schema_names in *.
  destruct (add_tool_params _ _ _) as [[params req]|pname]; simpl; [|done].
  rewrite map_app, elem_of_app. simpl. rewrite list_elem_of_singleton.
  rewrite <- Hinv.
  destruct (decide (name = fn_name fn)) as [->|Hne].
  - rewrite lookup_insert_eq. split; [by right|by eexists].
  - rewrite lookup_insert_ne by done. split; [by left|by intros [|]].
Qed.

(** X3.  Whatever a caller does with a new instance, in any order and
    however the calls end, the names that [run] can dispatch are exactly the
    names of the schemas that are passed to the model provider. *)
Theorem session_names_agree (ops : list Op) (w : World) (name : string) :
  is_Some (tool_callbacks (interp (session ops (fresh w))) !! name)
  <-> name ∈ schema_names (interp (session ops (fresh w))).
Proof.
  unfold session.
  assert (Hfresh : forall name,
    is_Some (tool_callbacks (interp (fresh w)) !! name)
    <-> name ∈ schema_names (interp (fresh w))).
  { intros n. unfold schema_names. simpl. rewrite lookup_empty. split.
    - by intros [? ?].
    - by intros ?%elem_of_nil. }
  revert name. generalize dependent (fresh w).
  induction ops as [|op ops IH]; intros m Hm name; simpl; [by apply Hm|].
  apply IH. intros n. destruct op as [fn|fuel command].
  - simpl. by apply add_tool_names_agree.
  - destruct (step_run_frame m fuel command) as (Hs & Hc & _).
    unfold schema_names. by rewrite Hs, Hc.
Qed.

Lemma session_counts_from (ops : list Op) : forall m,
  length (tools (interp (session ops m)))
  = length (tools (interp m)) + registrations ops /\
  size (tool_callbacks (interp (session ops m)))
  <= size (tool_callbacks (interp m)) + registrations ops /\
  tool_param_names (interp (session ops m)) = tool_param_names (interp m).
Proof.
  unfold session.
  induction ops as [|op ops IH]; intros m; simpl.
  - unfold registrations. simpl. split_and!; [lia|lia|done].
  - destruct (IH (step m op)) as (Hlen & Hsize & Hpn).
    rewrite Hlen, Hpn. clear IH Hlen Hpn.
    destruct op as [fn|fuel command].
    + unfold registrations in *.
      change (interp (step m (OpAddTool fn)))
        with (add_tool fn (interp m)).2 in *.
      cbn [List.filter length].
      pose proof (add_tool_done_iff fn (interp m)) as Hdone.
      pose proof (add_tool_not_done fn (interp m)) as Hsame.
      destruct (first_nameless fn) as [p|] eqn:Hf.
      * rewrite bool_decide_false by done.
        rewrite Hsame in Hsize |- * by (rewrite Hdone; done).
        split_and!; [done|exact Hsize|done].
      * rewrite bool_decide_true by done. cbn [length].
        destruct (add_tool_returns fn (interp m) (proj2 Hdone eq_refl))
          as (tool & _ & Hs & Hc).
        rewrite Hs, Hc in *. rewrite length_app. simpl.
        split_and!; [lia| |].
        -- rewrite map_size_insert in Hsize.
           destruct (tool_callbacks (interp m) !! fn_name fn);
             simpl in Hsize; lia.
        -- unfold add_tool.
           by destruct (add_tool_params _ _ _) as [[params req]|pname].
    + destruct (step_run_frame m fuel command) as (Hs & Hc & Hp).
      rewrite Hs, Hc, Hp in *. unfold registrations in *. simpl.
      split_and!; [done|exact Hsize|done].
Qed.

(** X4.  In a session on a new instance, the schema list holds exactly one
    schema per registration that returned (a registration that raised adds
    none, and nothing is ever removed); the callback map holds at most that
    many entries; the parameter-name map is never written and stays
    empty. *)
Theorem session_counts (ops : list Op) (w : World) :
  length (tools (interp (session ops (fresh w)))) = registrations ops /\
  size (tool_callbacks (interp (session ops (fresh w)))) <= registrations ops /\
  tool_param_names (interp (session ops (fresh w))) = ∅.
Proof.
  destruct (session_counts_from ops (fresh w)) as (Hlen & Hsize & Hpn).
  simpl in *. rewrite map_size_empty in Hsize. by split_and!.
Qed.

(** ** The shape of what run appends *)

(** The two forms of the text of a tool-role message. *)
Definition tool_text (text : string) : Prop :=
  (exists rest, text = "Completed with no errors. Result: " +:+ rest)
  \/ (exists rest, text = "Error: " +:+ rest).

(** The tool calls that a message carries: none when the key is absent. *)
Definition requests (msg : Message) : list ToolCall :=
  default [] (msg_tool_calls msg).

(** [ex] is raised by the callback registered for one of the requests. *)
Definition raised_by (callbacks : gmap string Callable) (tcs : list ToolCall)
    (ex : PyObject) : Prop :=
  exists tc fn w w',
    tc ∈ tcs /\ callbacks !! tc_name tc = Some fn /\
    fn_call fn (tc_arguments tc) w = (Raises ex, w').

(** A turn whose requests were all answered. *)
Definition served (t : Message * list string) : Prop :=
  requests t.1 <> [] /\ length t.2 = length (requests t.1).

Lemma tool_response_cases callbacks (tc : ToolCall) (w : World) :
  match (tool_response callbacks tc w).1 with
  | inl text => tool_text text
  | inr ex =>
      isinstance_Exception ex = false /\
      exists fn w',
        callbacks !! tc_name tc = Some fn /\
        fn_call fn (tc_arguments tc) w = (Raises ex, w')
  end.
Proof.
  unfold tool_response.
  destruct (callbacks !! tc_name tc) as [fn|] eqn:Hfn; simpl.
  - destruct (fn_call fn (tc_arguments tc) w) as [[v|ex] w'] eqn:Hcall; simpl.
    + left. by eexists.
    + destruct (isinstance_Exception ex) eqn:Hex; simpl.
      * right. by eexists.
      * split; [done|]. by exists fn, w'.
  - right. by eexists.
Qed.

Lemma for_tool_calls_shape (tcs : list ToolCall) : forall m,
  exists texts,
    messages (interp (for_tool_calls tcs m).2)
    = messages (interp m) ++ map tool_message texts /\
    Forall tool_text texts /\
    match (for_tool_calls tcs m).1 with
    | None => length texts = length tcs
    | Some ex =>
        length texts < length tcs /\
        isinstance_Exception ex = false /\
        raised_by (tool_callbacks (interp m)) tcs ex
    end.
Proof.
  induction tcs as [|tc tcs IH]; intros m; simpl.
  - exists []. simpl. by rewrite app_nil_r.
  - pose proof (tool_response_cases (tool_callbacks (interp m)) tc (world m))
      as Hcase.
    destruct (tool_response _ tc (world m)) as [[text|ex] w] eqn:Hr;
      simpl in Hcase.
    + destruct (IH (append_message (tool_message text)
                      (set_world w (emit (EvUsingTool tc) m))))
        as (texts & Hm & Htexts & Hres).
      exists (text :: texts). simpl in *. rewrite Hm, <- app_assoc.
      split_and!; [done|by constructor|].
      destruct (for_tool_calls tcs _).1 as [ex|].
      * destruct Hres as (Hlen & Hex & tc' & fn & w1 & w2 & Hin & Hfn & Hcall).
        split_and!; [lia|done|]. exists tc', fn, w1, w2.
        split_and!; [by right|done|done].
      * lia.
    + exists []. simpl. rewrite app_nil_r.
      destruct Hcase as (Hex & fn & w' & Hfn & Hcall).
      split_and!; [done|constructor|lia|done|].
      exists tc, fn, (world m), w'. split_and!; [by left|done|done].
Qed.

Lemma turn_shape (content : string) (m : Machine) :
  exists texts,
    messages (interp (turn content m).2)
    = messages (interp m) ++ turn_messages (next_reply m, texts) /\
    Forall tool_text texts /\
    match (turn content m).1.1 with
    | TurnDone => requests (next_reply m) = [] /\ texts = []
    | TurnAgain => served (next_reply m, texts)
    | TurnRaised ex =>
        length texts < length (requests (next_reply m)) /\
        isinstance_Exception ex = false /\
        raised_by (tool_callbacks (interp m)) (requests (next_reply m)) ex
    end.
Proof.
  unfold turn, next_reply, turn_messages, served, requests.
  destruct (chat _ _ _) as [reply w]. simpl.
  destruct (msg_tool_calls reply) as [tcs|]; simpl.
  - match goal with |- context [for_tool_calls tcs ?m1] =>
      destruct (for_tool_calls_shape tcs m1) as (texts & Hm & Htexts & Hres);
      destruct (for_tool_calls tcs m1) as [[ex|] m2]
    end; simpl in *; exists texts; rewrite Hm, <- app_assoc;
      (split; [done|split; [done|]]).
    + done.
    + case_bool_decide as Hlen; simpl.
      * destruct tcs; [|done]. by destruct texts.
      * split; [|done]. by intros ->.
  - exists []. simpl. by rewrite <- ?app_assoc.
Qed.

Lemma while_not_done_shape (fuel : nat) : forall content m,
  exists turns,
    messages (interp (while_not_done fuel content m).2)
    = messages (interp m) ++ flat_map turn_messages turns /\
    Forall (fun t => Forall tool_text t.2) turns /\
    match (while_not_done fuel content m).1 with
    | Returned _ =>
        exists earlier last,
          turns = earlier ++ [(last, [])] /\
          Forall served earlier /\ requests last = []
    | Propagated ex =>
        exists earlier last,
          turns = earlier ++ [last] /\
          Forall served earlier /\
          length last.2 < length (requests last.1) /\
          isinstance_Exception ex = false /\
          raised_by (tool_callbacks (interp m)) (requests last.1) ex
    | OutOfFuel => Forall served turns /\ length turns = fuel
    end.
Proof.
  induction fuel as [|fuel IH]; intros content m.
  - exists []. simpl. rewrite app_nil_r. by split_and!.
  - rewrite while_not_done_S.
    destruct (turn_shape content m) as (texts & Hm & Htexts & Hres).
    destruct (turn_spec content m) as (_ & _ & _ & _ & _ & _ & Hcb & _).
    destruct (turn content m) as [[t content'] m1]. simpl in *.
    destruct t as [| |ex].
    + destruct Hres as [Hreq ->].
      exists [(next_reply m, [])]. simpl. rewrite ?app_nil_r.
      split_and!; [done|by repeat constructor|].
      exists [], (next_reply m). by split_and!.
    + destruct (IH content' m1) as (turns & Hm' & Htexts' & Hres').
      exists ((next_reply m, texts) :: turns).
      rewrite Hm', Hm, <- app_assoc. simpl.
      split_and!; [done|by constructor|].
      destruct (while_not_done fuel content' m1).1 as [text|ex|].
      * destruct Hres' as (earlier & last & -> & Hserved & Hlast).
        exists ((next_reply m, texts) :: earlier), last.
        split_and!; [done|by constructor|done].
      * destruct Hres' as (earlier & last & -> & Hserved & Hlen & Hex & Hby).
        exists ((next_reply m, texts) :: earlier), last.
        rewrite Hcb in Hby.
        split_and!; [done|by constructor|done|done|done].
      * destruct Hres' as [Hserved <-].
        split; [by constructor|done].
    + destruct Hres as (Hlen & Hex & Hby).
      exists [(next_reply m, texts)]. simpl. rewrite ?app_nil_r.
      split_and!; [done|by repeat constructor|].
      exists [], (next_reply m, texts). by split_and!.
Qed.

(** The schema lists passed to the model provider, in the order of the
    calls. *)
Definition sent_schemas (evs : list Event) : list (list Tool) :=
  omap (fun ev => match ev with
                  | EvChat _ schemas _ => Some schemas
                  | EvUsingTool _ => None
                  end) evs.




(** X7.  When [run] returns, the transcript ends with a message of the model
    provider that carries no tool call, and in every earlier turn of the
    call the message carried at least one tool call and got exactly one
    tool-role message per call. *)
Theorem run_returns_after_served_turns (fuel : nat) (command : string)
    (m : Machine) (text : string) :
  (run fuel command m).1 = Returned text ->
  exists earlier final,
    messages (interp (run fuel command m).2)
    = messages (interp m)
      ++ user_message command :: flat_map turn_messages earlier ++ [final] /\
    requests final = [] /\
    Forall served earlier /\
    last (messages (interp (run fuel command m).2)) = Some final.
Proof.
  unfold run. intros Hres.
  destruct (while_not_done_shape fuel ""
              (append_message (user_message command) m))
    as (turns & Hm & _ & Hshape).
  rewrite Hres in Hshape.
  destruct Hshape as (earlier & final & -> & Hs & Hfinal).
  exists earlier, final. simpl in Hm.
  rewrite Hm, flat_map_app, <- app_assoc. simpl.
  split_and!; try done.
  rewrite app_comm_cons, app_assoc. apply last_snoc.
Qed.


Lemma sent_schemas_app (evs1 evs2 : list Event) :
  sent_schemas (evs1 ++ evs2) = sent_schemas evs1 ++ sent_schemas evs2.
Proof. apply omap_app. Qed.

Lemma sent_schemas_using_tool (tcs : list ToolCall) :
  sent_schemas (map EvUsingTool tcs) = [].
Proof. by induction tcs. Qed.

Lemma while_not_done_schemas (fuel : nat) : forall content m,
  exists evs,
    trace (while_not_done fuel content m).2 = trace m ++ evs /\
    Forall (fun schemas => schemas = tools (interp m)) (sent_schemas evs).
Proof.
  induction fuel as [|fuel IH]; intros content m.
  - exists []. simpl. by rewrite app_nil_r.
  - rewrite while_not_done_S.
    destruct (turn_spec content m) as (texts & k & _ & _ & Ht & Hs & _).
    destruct (turn content m) as [[t content'] m1]. simpl in *.
    set (tcs := take k (default [] (msg_tool_calls (next_reply m)))) in *.
    assert (Hone : forall evs,
      sent_schemas
        ((EvChat (messages (interp m)) (tools (interp m)) (next_reply m)
          :: map EvUsingTool tcs) ++ evs)
      = tools (interp m) :: sent_schemas evs).
    { intros evs. unfold sent_schemas. simpl. f_equal.
      rewrite omap_app. fold (sent_schemas (map EvUsingTool tcs)).
      by rewrite sent_schemas_using_tool. }
    destruct t as [| |ex].
    + eexists. split; [exact Ht|]. specialize (Hone []).
      rewrite app_nil_r in Hone. rewrite Hone. by repeat constructor.
    + destruct (IH content' m1) as (evs & Ht' & Hall).
      exists ((EvChat (messages (interp m)) (tools (interp m)) (next_reply m)
               :: map EvUsingTool tcs) ++ evs).
      rewrite Ht', Ht, <- app_assoc. split; [done|].
      rewrite Hone. constructor; [done|]. by rewrite <- Hs.
    + eexists. split; [exact Ht|]. specialize (Hone []).
      rewrite app_nil_r in Hone. rewrite Hone. by repeat constructor.
Qed.

(** X9.  Every call of the model provider during [run] is passed the whole
    schema list of the instance, the same list at every turn. *)
Theorem run_sends_all_schemas (fuel : nat) (command : string) (m : Machine) :
  exists evs,
    trace (run fuel command m).2 = trace m ++ evs /\
    Forall (fun schemas => schemas = tools (interp m)) (sent_schemas evs) /\
    length (sent_schemas evs) = chat_calls evs.
Proof.
  unfold run.
  destruct (while_not_done_schemas fuel ""
              (append_message (user_message command) m)) as (evs & Ht & Hall).
  exists evs. split_and!; [done|done|].
  unfold chat_calls, replies, sent_schemas. clear.
  induction evs as [|[tr ts reply|tc] evs IH]; simpl; [done| |done].
  by f_equal.
Qed.



(** X14.  Over any session the transcript, the schema list and the trace
    only grow at the end: what an instance holds at some point is still
    there, in place, after any further registrations and runs. *)
Theorem session_only_grows (ops : list Op) (m : Machine) :
  messages (interp m) `prefix_of` messages (interp (session ops m)) /\
  tools (interp m) `prefix_of` tools (interp (session ops m)) /\
  trace m `prefix_of` trace (session ops m).
Proof.
  unfold session. revert m.
  induction ops as [|op ops IH]; intros m; simpl; [done|].
  destruct (IH (step m op)) as (Hm & Hs & Ht).
  assert (messages (interp m) `prefix_of` messages (interp (step m op)) /\
          tools (interp m) `prefix_of` tools (interp (step m op)) /\
          trace m `prefix_of` trace (step m op)) as (Hm' & Hs' & Ht').
  { destruct op as [fn|fuel command].
    - simpl. unfold add_tool.
      destruct (add_tool_params _ _ _) as [[params req]|name]; simpl;
        split_and!; try done. by apply prefix_app_r.
    - simpl. destruct (run_spec fuel command m)
        as (turns & evs & Hrm & Hrt & _ & _ & _ & _ & Hrs & _).
      rewrite Hrm, Hrt, Hrs. split_and!; [|done|]; by apply prefix_app_r. }
  split_and!; by etrans.
Qed.

End Interpreter.

Arguments Param : clear implicits.
Arguments Outcome : clear implicits.
Arguments Callable : clear implicits.
Arguments ToolCall : clear implicits.
Arguments Message : clear implicits.
Arguments LanguageInterpreter : clear implicits.
Arguments Event : clear implicits.
Arguments Machine : clear implicits.
Arguments Completion : clear implicits.

(** ** A test bench: a gripper arm and scripted model providers *)

(** The objects of the bench: [None], strings, [ValueError(msg)] and
    [SystemExit()], which is a [BaseException] but not an [Exception]. *)
Inductive Obj :=
| PyNone
| Str (s : string)
| ValueError (msg : string)
| SystemExit.

Definition bench_repr (o : Obj) : string :=
  match o with
  | PyNone => "None"
  | Str s => "'" +:+ s +:+ "'"
  | ValueError msg => "ValueError('" +:+ msg +:+ "')"
  | SystemExit => "SystemExit()"
  end.

Definition bench_isinstance_Exception (o : Obj) : bool :=
  match o with
  | ValueError _ => true
  | _ => false
  end.

(** The world of the bench: how many times the model provider has been
    asked, and what the arm has done. *)
Record Bench := mkBench {
  asked : nat;
  arm : list string
}.

Definition acts (action : string) (w : Bench) : Bench :=
  mkBench (asked w) (arm w ++ [action]).


(** [def grab(item: str, force: float = None)], with the docstring
    [Close the gripper.] *)
Definition grab_v2 : Callable Obj Bench :=
  mkCallable "grab" (Some "Close the gripper.")
    [mkParam "item" (AnnNamed "str") None;
     mkParam "force" (AnnNamed "float") (Some PyNone)]
    (fun _ w => (Returns (Str "held"), acts "grab v2" w)).

(** [def move(x, y: float, speed=None)], with the docstring
    [Move the arm.] *)
Definition move : Callable Obj Bench :=
  mkCallable "move" (Some "Move the arm.")
    [mkParam "x" AnnEmpty None;
     mkParam "y" (AnnNamed "float") None;
     mkParam "speed" AnnEmpty (Some PyNone)]
    (fun _ w => (Returns PyNone, acts "move" w)).

(** [def drop(): raise ValueError("nothing held")]. *)
Definition drop : Callable Obj Bench :=
  mkCallable "drop" None []
    (fun _ w => (Raises (ValueError "nothing held"), w)).


(** A request for the tool [name], without arguments. *)
Definition request (name : string) : ToolCall Obj := mkToolCall name ∅.

(** A model provider that answers its first call with [first] and every
    later call with the content "done" and no tool call. *)
Definition scripted (first : Message Obj) (w : Bench)
    (transcript : list (Message Obj)) (schemas : list Tool)
  : Message Obj * Bench :=
  (match asked w with
   | 0 => first
   | S _ => mkMessage "assistant" "done" None
   end,
   mkBench (S (asked w)) (arm w)).

(** The message with content "" that asks for the tools [names]. *)
Definition asks (names : list string) : Message Obj :=
  mkMessage "assistant" "" (Some (map request names)).


(** A fresh instance with the given functions registered in order, in a
    world where nothing has happened yet. *)
Definition bench (fns : list (Callable Obj Bench)) : Machine Obj Bench :=
  mkMachine (foldl (fun self fn => (add_tool fn self).2) init fns)
            (mkBench 0 []) [].

Abbreviation bench_run := (@run Obj bench_repr bench_isinstance_Exception Bench).
Abbreviation bench_turn :=
  (@turn Obj bench_repr bench_isinstance_Exception Bench).
Abbreviation bench_while :=
  (@while_not_done Obj bench_repr bench_isinstance_Exception Bench).
Abbreviation bench_for :=
  (@for_tool_calls Obj bench_repr bench_isinstance_Exception Bench).

(** ** The properties on the bench *)

Lemma move_distinct_names : NoDup (map p_name (fn_parameters move)).
Proof. apply (bool_decide_unpack _). vm_compute. exact I. Defined.

Lemma move_introspectable : introspectable move.
Proof. repeat (constructor; [eexists; reflexivity|]). constructor. Defined.






Lemma C2_witness :
  exists tool,
    tools (add_tool move (@init Obj Bench)).2 = [] ++ [tool] /\
    forall p, p ∈ fn_parameters move ->
      exists prop,
        (p_name p, prop) ∈ properties (parameters (function tool)) /\
        (forall name, p_annotation p = AnnNamed name -> prop_type prop = name) /\
        (p_annotation p = AnnEmpty -> prop_type prop = "_empty").
Proof.
  exact (C2_recorded_type move init move_introspectable move_distinct_names).
Defined.

(** C2 at [def move(x, y: float, speed=None)]: the parameters [x] and
    [speed], which have no annotation, are typed "_empty". *)
Lemma C2_move_schema :
  tools (add_tool move (@init Obj Bench)).2
  = [mkTool "function"
       (mkToolFunction "move" (Some "Move the arm.")
          (mkToolParameters "object"
             [("x", mkProperty "_empty" "The x parameter");
              ("y", mkProperty "float" "The y parameter");
              ("speed", mkProperty "_empty" "The speed parameter")]
             ["x"; "y"]))].
Proof. reflexivity. Qed.








(** ** __init__: the model file and the loading of the model *)

(** The characters that the source writes with escapes. *)
Definition CR : string := String (Ascii.ascii_of_nat 13) EmptyString.
Definition LF : string := String (Ascii.ascii_of_nat 10) EmptyString.
Definition QUOTE : string := String (Ascii.ascii_of_nat 34) EmptyString.

(** The module constant [DEFAULT_MODEL_FILE], lines 7-13. *)
Definition DEFAULT_MODEL_FILE : string :=
  "FROM llama3.2:3b" +:+ LF +:+
  "PARAMETER temperature 0" +:+ LF +:+
  "SYSTEM " +:+ QUOTE +:+ QUOTE +:+ QUOTE +:+
  "You have the ability to control a robotic arm using tool calling." +:+ LF +:+
  "All information about physical objects must be obtained through tool calling, you must not generate any other information about objects." +:+ LF +:+
  "You don't need to mention the fact that you are using tool calling, this is implied." +:+ LF +:+
  "You may run multiple consecutive tool calls if necessary." +:+
  QUOTE +:+ QUOTE +:+ QUOTE +:+ LF.

(** What a path names. *)
Inductive Node :=
| File (text : string)
| Directory.

(** [os.path.isfile(path)]. *)
Definition isfile (fs : gmap string Node) (path : string) : bool :=
  match fs !! path with
  | Some (File _) => true
  | _ => false
  end.

(** [with open(path, "w") as f: f.write(text)], in a directory that exists
    and can be written: the file is created or truncated and holds [text];
    opening a directory raises [IsADirectoryError] ([None]). *)
Definition open_w_write (fs : gmap string Node) (path text : string)
  : option (gmap string Node) :=
  match fs !! path with
  | Some Directory => None
  | _ => Some (<[path := File text]> fs)
  end.

(** [" " * n]. *)
Fixpoint spaces (n : nat) : string :=
  match n with
  | 0 => EmptyString
  | S n => String (Ascii.ascii_of_nat 32) (spaces n)
  end.

Section Construction.

Context {PyObject : Type}.
Variable str : PyObject -> string.
Context {World : Type}.

(** One element of the stream of [ollama.create]: a dict that may have the
    keys ["status"], ["total"] and ["completed"]. *)
Record Info := mkInfo {
  info_status : option string;
  info_total : option PyObject;
  info_completed : option PyObject
}.

(** [ollama.create("arm_model", path=model_file_path, stream=True)]: the
    elements of the stream, for the file system as it is at the call. *)
Variable create : gmap string Node -> string -> list Info.

(** The files and what has been printed, one entry per call of [print]. *)
Record Host := mkHost {
  fs : gmap string Node;
  console : list string
}.

(** [print(text)] and [print(text, end=...)] with an empty [end]. *)
Definition print (text : string) (h : Host) : Host :=
  mkHost (fs h) (console h ++ [text +:+ LF]).

Definition print_no_end (text : string) (h : Host) : Host :=
  mkHost (fs h) (console h ++ [text]).

(** Lines 32-34: the status line for one element of the stream; [None] is
    the [KeyError] of [info["status"]]. *)
Definition status_line_of (model_file_path : string) (info : Info)
  : option string :=
  match info_status info with
  | None => None
  | Some status =>
      let status_line :=
        ("Loading arm language model from '" +:+ model_file_path +:+ "': ")
        +:+ status in
      match info_total info, info_completed info with
      | Some total, Some completed =>
          Some (status_line
                +:+ (" (" +:+ str total +:+ " / " +:+ str completed +:+ ")"))
      | _, _ => Some status_line
      end
  end.

(** The loop of lines 31-36 over the rest of the stream: [false] when
    [info["status"]] raises [KeyError]. *)
Fixpoint for_info (model_file_path : string) (infos : list Info)
    (last_status_line : string) (h : Host) : bool * Host :=
  match infos with
  | [] => (true, h)
  | info :: rest =>
      match status_line_of model_file_path info with
      | None => (false, h)
      | Some status_line =>
          let h :=
            print_no_end
              (CR +:+ spaces (String.length last_status_line) +:+ CR
               +:+ status_line) h in
          for_info model_file_path rest status_line h
      end
  end.

Inductive InitResult :=
| InitDone (self : @LanguageInterpreter PyObject World)
| InitIsADirectoryError
| InitKeyError.

(** Lines 30-37: the stream of [ollama.create] is printed, then the empty
    line; the instance is returned unless a status is missing. *)
Definition load_model (model_file_path : string)
    (self : @LanguageInterpreter PyObject World) (h : Host)
  : InitResult * Host :=
  match for_info model_file_path (create (fs h) model_file_path)
          EmptyString h with
  | (false, h) => (InitKeyError, h)
  | (true, h) => (InitDone self, print EmptyString h)
  end.

(** [LanguageInterpreter(model_file_path)]: the new instance or the
    exception, and the files and the console afterwards. *)
Definition __init__ (model_file_path : string) (h : Host)
  : InitResult * Host :=
  let self := init in
  if isfile (fs h) model_file_path then load_model model_file_path self h
  else
    let h :=
      print "Language model file does not exist, creating default..." h in
    match open_w_write (fs h) model_file_path DEFAULT_MODEL_FILE with
    | None => (InitIsADirectoryError, h)
    | Some fs' => load_model model_file_path self (mkHost fs' (console h))
    end.

(** What one pass of the loop prints: the previous status line is blanked
    with as many spaces as it has characters, then the new one is written. *)
Definition progress (last_status_line status_line : string) : string :=
  CR +:+ spaces (String.length last_status_line) +:+ CR +:+ status_line.

(** The notice that is printed when the model file is created. *)
Definition notice (fs : gmap string Node) (model_file_path : string)
  : list string :=
  if isfile fs model_file_path then []
  else ["Language model file does not exist, creating default..." +:+ LF].

Lemma for_info_spec (path : string) (infos : list Info) : forall last h,
  fs (for_info path infos last h).2 = fs h /\
  exists before lines,
    Forall2 (fun info line => status_line_of path info = Some line)
            before lines /\
    console (for_info path infos last h).2
    = console h ++ zip_with progress (last :: lines) lines /\
    if (for_info path infos last h).1 then infos = before
    else exists info after,
           infos = before ++ info :: after /\ info_status info = None.
Proof.
  induction infos as [|info infos IH]; intros last h; simpl.
  - split; [done|]. exists [], []. simpl. rewrite app_nil_r.
    split_and!; [constructor|done|done].
  - destruct (status_line_of path info) as [line|] eqn:Hline.
    + destruct (IH line (print_no_end (progress last line) h))
        as (Hfs & before & lines & Hall & Hcon & Hres).
      unfold progress in *. split; [by rewrite Hfs|].
      exists (info :: before), (line :: lines). simpl in *.
      rewrite Hcon, <- app_assoc. split_and!; [by constructor|done|].
      destruct (for_info path infos line _).1.
      * by rewrite Hres.
      * destruct Hres as (bad & after & -> & Hbad). by exists bad, after.
    + split; [done|]. exists [], []. simpl. rewrite app_nil_r.
      split_and!; [constructor|done|]. exists info, infos. split; [done|].
      unfold status_line_of in Hline.
      destruct (info_status info); [|done].
      by destruct (info_total info), (info_completed info).
Qed.

(** X11.  The constructor never overwrites a model file that exists; when
    the path names nothing it creates the file with the default text; when
    the path names a directory, and only then, [IsADirectoryError] leaves it
    and nothing is written.  No other path is touched.  When it returns,
    the model file exists and the instance has an empty transcript and an
    empty registry. *)
Theorem init_model_file (path : string) (h : Host) :
  (isfile (fs h) path = true -> fs (__init__ path h).2 = fs h) /\
  (fs h !! path = None ->
   fs (__init__ path h).2 = <[path := File DEFAULT_MODEL_FILE]> (fs h)) /\
  ((__init__ path h).1 = InitIsADirectoryError
   <-> fs h !! path = Some Directory) /\
  (fs h !! path = Some Directory -> fs (__init__ path h).2 = fs h) /\
  (forall other, other <> path ->
     fs (__init__ path h).2 !! other = fs h !! other) /\
  (forall self,
     (__init__ path h).1 = InitDone self ->
     self = init /\ isfile (fs (__init__ path h).2) path = true).
Proof.
  assert (Hload : forall self h0,
    fs (load_model path self h0).2 = fs h0 /\
    (load_model path self h0).1 <> InitIsADirectoryError /\
    (forall self', (load_model path self h0).1 = InitDone self' ->
                   self' = self)).
  { intros self h0. unfold load_model.
    destruct (for_info_spec path (create (fs h0) path) EmptyString h0)
      as [Hfs _].
    destruct (for_info _ _ _ _) as [[|] h1]; simpl in *;
      (split_and!; [done|done|]); [by intros ? [= <-]|done]. }
  unfold __init__, isfile, open_w_write, print. simpl.
  destruct (fs h !! path) as [[text|]|] eqn:Hpath; simpl.
  - destruct (Hload init h) as (Hfs & Hnd & Hself).
    split_and!; try done.
    + intros other _. by rewrite Hfs.
    + intros self Hdone. split; [by apply Hself|].
      by rewrite Hfs, Hpath.
  - split_and!; try done.
  - match goal with |- context [load_model path init ?h0] =>
      destruct (Hload init h0) as (Hfs & Hnd & Hself) end.
    simpl in Hfs. split_and!; try done.
    + intros other Hne. by rewrite Hfs, lookup_insert_ne.
    + intros self Hdone. split; [by apply Hself|].
      by rewrite Hfs, lookup_insert_eq.
Qed.

(** X12.  When the constructor returns it has printed, in order: the notice
    if it created the model file; one entry per element of the stream, each
    blanking the previous status line with exactly as many spaces as that
    line has characters before writing its own; and the end of the line. *)
Theorem init_console (path : string) (h : Host)
    (self : @LanguageInterpreter PyObject World) :
  (__init__ path h).1 = InitDone self ->
  exists lines,
    Forall2 (fun info line => status_line_of path info = Some line)
            (create (fs (__init__ path h).2) path) lines /\
    console (__init__ path h).2
    = console h ++ notice (fs h) path
      ++ zip_with progress (EmptyString :: lines) lines ++ [LF].
Proof.
  assert (Hload : forall h0,
    (load_model path init h0).1 = InitDone self ->
    exists lines,
      Forall2 (fun info line => status_line_of path info = Some line)
              (create (fs (load_model path init h0).2) path) lines /\
      console (load_model path init h0).2
      = console h0 ++ zip_with progress (EmptyString :: lines) lines ++ [LF]).
  { intros h0. unfold load_model.
    destruct (for_info_spec path (create (fs h0) path) EmptyString h0)
      as (Hfs & before & lines & Hall & Hcon & Hres).
    destruct (for_info _ _ _ _) as [[|] h1]; simpl in *; [|done].
    intros _. exists lines. rewrite Hfs, Hres, Hcon, <- app_assoc. done. }
  unfold __init__, notice, isfile, open_w_write, print. simpl.
  destruct (fs h !! path) as [[text|]|] eqn:Hpath; simpl.
  - intros Hdone. destruct (Hload h Hdone) as (lines & Hall & Hcon).
    by exists lines.
  - done.
  - intros Hdone. destruct (Hload _ Hdone) as (lines & Hall & Hcon).
    exists lines. split; [done|]. rewrite Hcon. simpl.
    by rewrite <- app_assoc.
Qed.

(** X13.  When [KeyError] leaves the constructor, the first element of the
    stream without a status has been reached.  By then the model file
    exists (created if it was missing), the notice and the elements before
    that element have been printed, and the end of the line has not. *)
Theorem init_missing_status (path : string) (h : Host) :
  (__init__ path h).1 = InitKeyError ->
  isfile (fs (__init__ path h).2) path = true /\
  exists before info after lines,
    create (fs (__init__ path h).2) path = before ++ info :: after /\
    info_status info = None /\
    Forall2 (fun info line => status_line_of path info = Some line)
            before lines /\
    console (__init__ path h).2
    = console h ++ notice (fs h) path
      ++ zip_with progress (EmptyString :: lines) lines.
Proof.
  assert (Hload : forall h0,
    (load_model path init h0).1 = InitKeyError ->
    fs (load_model path init h0).2 = fs h0 /\
    exists before info after lines,
      create (fs (load_model path init h0).2) path = before ++ info :: after /\
      info_status info = None /\
      Forall2 (fun info line => status_line_of path info = Some line)
              before lines /\
      console (load_model path init h0).2
      = console h0 ++ zip_with progress (EmptyString :: lines) lines).
  { intros h0. unfold load_model.
    destruct (for_info_spec path (create (fs h0) path) EmptyString h0)
      as (Hfs & before & lines & Hall & Hcon & Hres).
    destruct (for_info _ _ _ _) as [[|] h1]; simpl in *; [done|].
    intros _. split; [done|].
    destruct Hres as (info & after & Hinfos & Hbad).
    exists before, info, after, lines. by rewrite Hfs. }
  unfold __init__, notice, isfile, open_w_write, print. simpl.
  destruct (fs h !! path) as [[text|]|] eqn:Hpath; simpl.
  - intros Hkey. destruct (Hload h Hkey) as (Hfs & Hrest).
    split; [by rewrite Hfs, Hpath|done].
  - done.
  - intros Hkey. destruct (Hload _ Hkey) as (Hfs & Hrest).
    split; [by rewrite Hfs; simpl; rewrite lookup_insert_eq|].
    destruct Hrest as (before & info & after & lines & H1 & H2 & H3 & H4).
    exists before, info, after, lines. split_and!; try done.
    rewrite H4. simpl. by rewrite <- app_assoc.
Qed.



End Construction.

Arguments Info : clear implicits.

(** ** The further properties on the bench *)


(** [str] on the bench: a string is printed without quotes. *)
Definition bench_str (o : Obj) : string :=
  match o with
  | Str s => s
  | _ => bench_repr o
  end.

(** A stream of three elements, the second with a progress count. *)
Definition pulling (fs : gmap string Node) (path : string) : list (Info Obj) :=
  [mkInfo (Some "pulling manifest") None None;
   mkInfo (Some "pulling layer") (Some (Str "100")) (Some (Str "40"));
   mkInfo (Some "success") None None].

(** A stream whose second element has no status. *)
Definition broken (fs : gmap string Node) (path : string) : list (Info Obj) :=
  [mkInfo (Some "pulling manifest") None None;
   mkInfo None (Some (Str "100")) (Some (Str "40"));
   mkInfo (Some "success") None None].

Abbreviation bench_init := (@__init__ Obj bench_str Bench).


Lemma add_tool_keeps_others_witness :
  tool_callbacks (add_tool move (interp (bench [grab_v2]))).2 !! "grab"
  = tool_callbacks (interp (bench [grab_v2])) !! "grab" /\
  tools (interp (bench [grab_v2]))
    `prefix_of` tools (add_tool move (interp (bench [grab_v2]))).2 /\
  ((add_tool move (interp (bench [grab_v2]))).1 = AddToolDone ->
   tool_callbacks (add_tool move (interp (bench [grab_v2]))).2 !! "move"
   = Some move).
Proof.
  apply (add_tool_keeps_others move (interp (bench [grab_v2])) "grab").
  discriminate.
Defined.


Lemma run_returns_after_served_turns_witness :
  exists earlier final,
    messages (interp (bench_run (scripted (asks ["drop"; "grab"])) 2 "go"
                        (bench [drop; grab_v2])).2)
    = messages (interp (bench [drop; grab_v2]))
      ++ user_message "go" :: flat_map turn_messages earlier ++ [final] /\
    requests final = [] /\
    Forall served earlier /\
    last (messages (interp (bench_run (scripted (asks ["drop"; "grab"])) 2
                              "go" (bench [drop; grab_v2])).2))
    = Some final.
Proof.
  apply (run_returns_after_served_turns bench_repr
           bench_isinstance_Exception (scripted (asks ["drop"; "grab"]))
           2 "go" (bench [drop; grab_v2]) "done").
  vm_compute. reflexivity.
Defined.



Lemma init_console_witness :
  exists lines,
    Forall2 (fun info line =>
               status_line_of bench_str "arm.modelfile" info = Some line)
            (pulling (fs (bench_init pulling "arm.modelfile"
                            (mkHost ∅ [])).2) "arm.modelfile")
            lines /\
    console (bench_init pulling "arm.modelfile" (mkHost ∅ [])).2
    = [] ++ notice ∅ "arm.modelfile"
      ++ zip_with progress (EmptyString :: lines) lines ++ [LF].
Proof.
  apply (init_console bench_str pulling "arm.modelfile" (mkHost ∅ []) init).
  vm_compute. reflexivity.
Defined.

Lemma init_missing_status_witness :
  isfile (fs (bench_init broken "arm.modelfile" (mkHost ∅ [])).2)
    "arm.modelfile" = true /\
  exists before info after lines,
    broken (fs (bench_init broken "arm.modelfile" (mkHost ∅ [])).2)
      "arm.modelfile"
    = before ++ info :: after /\
    info_status info = None /\
    Forall2 (fun info line =>
               status_line_of bench_str "arm.modelfile" info = Some line)
            before lines /\
    console (bench_init broken "arm.modelfile" (mkHost ∅ [])).2
    = [] ++ notice ∅ "arm.modelfile"
      ++ zip_with progress (EmptyString :: lines) lines.
Proof.
  apply (init_missing_status bench_str broken "arm.modelfile" (mkHost ∅ [])).
  vm_compute. reflexivity.
Defined.
